(** * Car identifier: the Home page (src/pages/Home.tsx)

    A shallow embedding of the logic of the [Home] component: the line
    formatter [formatAnalysis], the upload handler [handleImageUpload],
    the analysis handler [handleAnalyze] and the initial load
    [loadDefaultContent], with the properties the specification states
    about them. *)

From Stdlib Require Import Ascii String.
From Stdlib Require Import List NArith Bool Arith Lia Sorted.
Import ListNotations.

(** ** JavaScript strings

    A JavaScript string is a sequence of UTF-16 code units.  The
    operations below are the [String.prototype] methods and the regular
    expressions that [Home.tsx] uses, on that representation. *)
Module JS.

Definition char16 := N.
Definition jsstring := list char16.

(** An ASCII literal of the source as a list of code units. *)
Definition lit (s : string) : jsstring :=
  List.map N_of_ascii (list_ascii_of_string s).

Definition LF : char16 := 10%N.      (* '\n' *)
Definition DASH : char16 := 45%N.    (* '-' *)
Definition DOT : char16 := 46%N.     (* '.' *)
Definition COLON : char16 := 58%N.   (* ':' *)

(** [\d] of a regular expression without the [u] flag: [0-9]. *)
Definition is_digit (c : char16) : bool :=
  ((48 <=? c) && (c <=? 57))%N.

(** [\s], which is also what [trim] removes: WhiteSpace (TAB, VT, FF,
    SP, NBSP, ZWNBSP and the Unicode space separators) and
    LineTerminator (LF, CR, LS, PS). *)
Definition is_space (c : char16) : bool :=
  ((c =? 9) || (c =? 10) || (c =? 11) || (c =? 12) || (c =? 13)
   || (c =? 32) || (c =? 160) || (c =? 5760)
   || ((8192 <=? c) && (c <=? 8202))
   || (c =? 8232) || (c =? 8233) || (c =? 8239) || (c =? 8287)
   || (c =? 12288) || (c =? 65279))%N.

(** The character class [[*_#`]]. *)
Definition is_markup (c : char16) : bool :=
  ((c =? 42) || (c =? 95) || (c =? 35) || (c =? 96))%N.

Fixpoint dropWhile (p : char16 -> bool) (s : jsstring) : jsstring :=
  match s with
  | [] => []
  | c :: s' => if p c then dropWhile p s' else s
  end.

(** [s.trim()] *)
Definition trim (s : jsstring) : jsstring :=
  rev (dropWhile is_space (rev (dropWhile is_space s))).

(** [s.startsWith(p)] *)
Fixpoint startsWith (p s : jsstring) : bool :=
  match p, s with
  | [], _ => true
  | _ :: _, [] => false
  | a :: p', b :: s' => (a =? b)%N && startsWith p' s'
  end.

(** [s.includes(p)] *)
Fixpoint includes (p s : jsstring) : bool :=
  startsWith p s ||
  match s with
  | [] => false
  | _ :: s' => includes p s'
  end.

(** [s.substring(1)] *)
Definition substring1 (s : jsstring) : jsstring := tl s.

(** [s.split(sep)] for a separator of one code unit, which is the only
    use in the source (['\n'] and [':']).  The result is never empty:
    [''.split(sep)] is [['']]. *)
Fixpoint split (sep : char16) (s : jsstring) : list jsstring :=
  match s with
  | [] => [[]]
  | c :: s' =>
      if (c =? sep)%N then [] :: split sep s'
      else match split sep s' with
           | p :: ps => (c :: p) :: ps
           | [] => [[c]]
           end
  end.

(** [parts.join(sep)] for a separator of one code unit; the join of the
    empty array is the empty string. *)
Fixpoint join (sep : char16) (parts : list jsstring) : jsstring :=
  match parts with
  | [] => []
  | [p] => p
  | p :: ps => p ++ sep :: join sep ps
  end.

(** [s.replace(/[*_#`]/g, '')]: every match of the class is removed. *)
Definition remove_markup (s : jsstring) : jsstring :=
  filter (fun c => negb (is_markup c)) s.

(** The match of [/^\d+\./] at the start of [s]: [Some rest] with [rest]
    the text after the period when [s] starts with one or more digits
    followed by a period, [None] otherwise.  [\d+] is greedy, and giving
    digits back cannot help since the next character has to be a
    period. *)
Definition match_header (s : jsstring) : option jsstring :=
  match s with
  | c :: _ =>
      if is_digit c then
        match dropWhile is_digit s with
        | d :: rest => if (d =? DOT)%N then Some rest else None
        | [] => None
        end
      else None
  | [] => None
  end.

(** [/^\d+\./.test(s)] *)
Definition test_header (s : jsstring) : bool :=
  match match_header s with Some _ => true | None => false end.

(** [s.replace(/^\d+\.\s*/, '')]: the first (and, anchored, only) match
    is removed; [\s*] takes all the white space after the period.  A
    string without a match is returned as it is. *)
Definition strip_header (s : jsstring) : jsstring :=
  match match_header s with
  | Some rest => dropWhile is_space rest
  | None => s
  end.

End JS.

Import JS.

(** ** The formatter *)

(** What [formatAnalysis] renders for one line: the [h3] of a section
    header, the two [span]s of a labelled item, the bullet [span] and
    its text, or a [p]. *)
Inductive Block : Type :=
| SectionHeader (title : jsstring)
| LabeledItem (label value : jsstring)
| BulletItem (text : jsstring)
| ParagraphText (text : jsstring).

(** A rendered element: the block and its React [key], the index of the
    source line. *)
Record Element : Type := mkElement { key : nat; block : Block }.

(** The string fields of a block. *)
Definition fields (b : Block) : list jsstring :=
  match b with
  | SectionHeader t => [t]
  | LabeledItem l v => [l; v]
  | BulletItem t => [t]
  | ParagraphText t => [t]
  end.

(** [line.replace(/[*_#`]/g, '').trim()] *)
Definition cleanLine (line : jsstring) : jsstring :=
  trim (remove_markup line).

(** The classification of a cleaned line, [None] for [null]. *)
Definition classify (cl : jsstring) : option Block :=
  match cl with
  | [] => None
  | _ :: _ =>
      if test_header cl then
        Some (SectionHeader (strip_header cl))
      else if startsWith [DASH] cl && includes [COLON] cl then
        let parts := split COLON (substring1 cl) in
        let label := hd [] parts in
        let valueParts := tl parts in
        let value := trim (join COLON valueParts) in
        Some (LabeledItem (trim label) value)
      else if startsWith [DASH] cl then
        Some (BulletItem (trim (substring1 cl)))
      else
        Some (ParagraphText cl)
  end.

(** The callback of [map]: [(line, index) => ...]. *)
Definition formatLine (line : jsstring) (index : nat) : option Element :=
  match classify (cleanLine line) with
  | Some b => Some (mkElement index b)
  | None => None
  end.

(** [array.map((x, i) => f x i)], counting from [i]. *)
Fixpoint mapi_from {A B : Type} (f : A -> nat -> B) (i : nat) (l : list A)
  : list B :=
  match l with
  | [] => []
  | x :: l' => f x i :: mapi_from f (S i) l'
  end.

(** [array.filter(Boolean)] on an array of elements and [null]s: an
    element is an object, hence truthy; [null] is dropped. *)
Fixpoint filterBoolean {A : Type} (l : list (option A)) : list A :=
  match l with
  | [] => []
  | Some x :: l' => x :: filterBoolean l'
  | None :: l' => filterBoolean l'
  end.

Definition formatAnalysis (text : jsstring) : list Element :=
  filterBoolean (mapi_from formatLine 0 (split LF text)).

(** ** The component state and its environment *)

(** A [Blob] (a [File] is one): its declared media type and its size in
    bytes. *)
Record Blob : Type := mkBlob { type : jsstring; size : N }.
Definition File := Blob.

(** The four [useState] cells of [Home]. *)
Record UIState : Type := mkUI {
  image : option jsstring;
  analysis : jsstring;
  loading : bool;
  error : option jsstring
}.

(** What the component asks of its environment. *)
Inductive call : Type :=
| Fetch (url : jsstring)                    (* fetch(url) *)
| ReadAsDataURL (b : Blob)                  (* reader.readAsDataURL(b) *)
| AnalyzeImage (imageData : option jsstring) (prompt : jsstring)
                                            (* analyzeImage(imageData, prompt) *)
| ResetInput                                (* e.target.value = '' *)
| ConsoleError.                             (* console.error(...) *)

(** The calls that go over the network, and the one that asks for an
    analysis. *)
Definition is_network_call (c : call) : bool :=
  match c with
  | Fetch _ | AnalyzeImage _ _ => true
  | _ => false
  end.

Definition is_analysis_call (c : call) : bool :=
  match c with
  | AnalyzeImage _ _ => true
  | _ => false
  end.

(** The state and the calls made so far, oldest first. *)
Record World : Type := mkWorld { ui : UIState; calls : list call }.

(** Handlers run in a state monad over [World]. *)
Definition M (A : Type) : Type := World -> A * World.

Definition ret {A : Type} (a : A) : M A := fun w => (a, w).

Definition bind {A B : Type} (m : M A) (k : A -> M B) : M B :=
  fun w => let (a, w') := m w in k a w'.

Notation "c1 ;; c2" := (bind c1 (fun _ => c2))
  (at level 61, right associativity).

Definition exec (m : M unit) (w : World) : World := snd (m w).

Definition modify (f : UIState -> UIState) : M unit :=
  fun w => (tt, mkWorld (f (ui w)) (calls w)).

Definition setImage (v : option jsstring) : M unit :=
  modify (fun s => mkUI v (analysis s) (loading s) (error s)).
Definition setAnalysis (v : jsstring) : M unit :=
  modify (fun s => mkUI (image s) v (loading s) (error s)).
Definition setLoading (v : bool) : M unit :=
  modify (fun s => mkUI (image s) (analysis s) v (error s)).
Definition setError (v : option jsstring) : M unit :=
  modify (fun s => mkUI (image s) (analysis s) (loading s) v).

Definition perform (c : call) : M unit :=
  fun w => (tt, mkWorld (ui w) (calls w ++ [c])).

(** The initial values of the [useState] cells, and no call made. *)
Definition initial : World := mkWorld (mkUI None [] false None) [].

(** A promise settles: it resolves with a value or rejects with what
    was thrown, an [Error] with its message or any other value. *)
Inductive thrown : Type :=
| ThrownError (message : jsstring)
| ThrownOther.

Inductive settled (A : Type) : Type :=
| Resolved (a : A)
| Rejected (err : thrown).
Arguments Resolved {A} a.
Arguments Rejected {A} err.

(** ** Constants *)

Definition DEFAULT_IMAGE : jsstring := lit "/default-car.jpg".

Definition DEFAULT_ANALYSIS : jsstring := lit "1. Car Identification:
- Make: Porsche
- Model: 911 (992 Series)
- Year Range: 2019-Present
- Variant: Carrera S
- Body Style: Coupe
- Distinguishing Features: Iconic sloping rear, wide rear fenders, LED light bar

2. Technical Specifications:
- Engine: 3.0L Twin-Turbocharged Flat-Six
- Power Output: Approximately 443 hp (330 kW)
- Transmission: 8-speed PDK dual-clutch automatic or 7-speed manual
- Drivetrain: Rear-wheel drive (RWD)
- 0-60 mph: Around 3.5 seconds
- Top Speed: Approximately 191 mph (307 km/h)

3. Design & Features:
- Exterior: Streamlined profile, LED headlights, retractable door handles
- Interior: Digital instrument cluster, 10.9-inch touchscreen, minimalist design
- Safety Systems: Adaptive cruise control, lane keep assist, automatic emergency braking
- Technology: Apple CarPlay, Android Auto, navigation system, Porsche Connect
- Notable Options: Sport Chrono package, ceramic brakes, adaptive suspension

4. Market & Value:
- Starting Price: $115,000-$130,000 (base model, when new)
- Current Market Position: Premium sports car segment
- Competitors: Ferrari F8, McLaren 570S, Audi R8, Mercedes-AMG GT
- Depreciation Rate: Lower than average (strong value retention)
- Collectibility Potential: High (continuing the legacy of the iconic 911 line)

5. Additional Information:
- Heritage: Continues the lineage of the 911, first introduced in 1963
- Performance History: Extensive motorsport heritage in endurance racing
- Interesting Facts: The 992 is the 8th generation of the Porsche 911
- Environmental Rating: Improved fuel efficiency over previous generations
- Ownership Considerations: High-performance driving experience, specialized maintenance".

Definition carPrompt : jsstring := lit "Analyze this car image for educational purposes and provide the following information:
1. Car identification (make, model, year range, variant, body style, distinguishing features)
2. Technical specifications (engine, power output, transmission, drivetrain, performance metrics)
3. Design and features (exterior, interior, safety systems, technology, notable options)
4. Market and value (price range, market position, competitors, depreciation, collectibility)
5. Additional information (heritage, performance history, interesting facts, environmental rating)

IMPORTANT: This is for educational purposes only.".

(** The [accept] attribute of the file input, split at the commas.  It
    filters what the browser's file picker offers; the change handler
    does not read it. *)
Definition accept : list jsstring :=
  [lit "image/jpeg"; lit "image/png"; lit "image/jpg"; lit "image/webp"].

(** ** The handlers *)

(** [handleAnalyze], up to its [await]: the state updates, then the call
    that is awaited. *)
Definition handleAnalyze_before : M unit :=
  setLoading true ;;
  setError None.

Definition handleAnalyze_start (imageData : option jsstring) : M unit :=
  handleAnalyze_before ;;
  perform (AnalyzeImage imageData carPrompt).

(** [err instanceof Error ? err.message : '...'] *)
Definition errorMessage (err : thrown) : jsstring :=
  match err with
  | ThrownError message => message
  | ThrownOther => lit "Failed to analyze image. Please try again."
  end.

(** [handleAnalyze], from the point where [analyzeImage] has settled:
    the [try] continues or the [catch] runs, then the [finally]. *)
Definition handleAnalyze_after (r : settled jsstring) : M unit :=
  match r with
  | Resolved result => setAnalysis result
  | Rejected err => setError (Some (errorMessage err))
  end ;;
  setLoading false.

(** A whole invocation, with nothing else happening in between. *)
Definition handleAnalyze (imageData : option jsstring) (r : settled jsstring)
  : M unit :=
  handleAnalyze_start imageData ;;
  handleAnalyze_after r.

(** [handleImageUpload], with [e.target.files] as an optional list: the
    file is [e.target.files?.[0]]. *)
Definition handleImageUpload (files : option (list File)) : M unit :=
  match files with
  | Some (file :: _) =>
      if negb (startsWith (lit "image/") (type file)) then
        setError (Some (lit "Please upload a valid image file"))
      else if (20 * 1024 * 1024 <? size file)%N then
        setError (Some (lit "Image size should be less than 20MB"))
      else
        perform (ReadAsDataURL file) ;;
        perform ResetInput
  | _ => ret tt
  end.

(** The callbacks of the upload's reader; [result] is [reader.result],
    which is [null] when nothing was read. *)
Definition upload_onloadend (result : option jsstring) : M unit :=
  setImage result ;;
  setError None ;;
  handleAnalyze_start result.

Definition upload_onerror : M unit :=
  setError (Some (lit "Failed to read the image file. Please try again.")).

(** How [fetch(DEFAULT_IMAGE)] and [response.blob()] turn out: the fetch
    rejects, or gives a response with its [ok] flag and, when the body
    can be read, its blob. *)
Inductive fetched : Type :=
| FetchRejected
| FetchResponse (ok : bool) (body : option Blob).

(** [loadDefaultContent], up to [await fetch(DEFAULT_IMAGE)]. *)
Definition loadDefaultContent_start : M unit :=
  setLoading true ;;
  perform (Fetch DEFAULT_IMAGE).

(** The [catch] of [loadDefaultContent]. *)
Definition loadDefaultContent_catch : M unit :=
  perform ConsoleError ;;
  setError (Some (lit "Failed to load default image")) ;;
  setLoading false.

(** [loadDefaultContent], from the point where the fetch has settled. *)
Definition loadDefaultContent_after (r : fetched) : M unit :=
  match r with
  | FetchResponse true (Some blob) => perform (ReadAsDataURL blob)
  | _ => loadDefaultContent_catch
  end.

(** The callbacks of the initial load's reader. *)
Definition default_onloadend (result : option jsstring) : M unit :=
  setImage result ;;
  setAnalysis DEFAULT_ANALYSIS ;;
  setLoading false.

Definition default_onerror : M unit :=
  setError (Some (lit "Failed to load default image")) ;;
  setLoading false.

(** ** The component as a machine driven by events *)

Inductive event : Type :=
| Mount                                         (* the effect of the first render *)
| Fetched (r : fetched)
| DefaultLoadEnd (result : option jsstring)
| DefaultReadError
| Change (files : option (list File))           (* onChange of the file input *)
| UploadLoadEnd (result : option jsstring)
| UploadReadError
| AnalyzeSettled (r : settled jsstring).

Definition handle (e : event) : M unit :=
  match e with
  | Mount => loadDefaultContent_start
  | Fetched r => loadDefaultContent_after r
  | DefaultLoadEnd result => default_onloadend result
  | DefaultReadError => default_onerror
  | Change files => handleImageUpload files
  | UploadLoadEnd result => upload_onloadend result
  | UploadReadError => upload_onerror
  | AnalyzeSettled r => handleAnalyze_after r
  end.

Fixpoint run (es : list event) (w : World) : World :=
  match es with
  | [] => w
  | e :: es' => run es' (exec (handle e) w)
  end.

(** ** What an upload can come to *)

(** The handler set [msg] as the error and did nothing else. *)
Definition rejected_with (msg : jsstring) (w w' : World) : Prop :=
  ui w' = mkUI (image (ui w)) (analysis (ui w)) (loading (ui w)) (Some msg)
  /\ calls w' = calls w.

(** The handler started to read (encode) [file] and reset the input;
    the state is as it was. *)
Definition read_started (file : File) (w w' : World) : Prop :=
  ui w' = ui w /\ calls w' = calls w ++ [ReadAsDataURL file; ResetInput].

(** ** Vocabulary of the statements *)

(** A string that does not start with white space. *)
Definition no_leading_space (s : jsstring) : bool :=
  match s with
  | [] => true
  | c :: _ => negb (is_space c)
  end.

(** A string that does not end with white space. *)
Definition no_trailing_space (s : jsstring) : bool :=
  no_leading_space (rev s).

(** A string without the character [c]. *)
Definition lacks (c : char16) (s : jsstring) : bool :=
  forallb (fun x => negb (x =? c)%N) s.

(** The blocks a line contributes: one, or none. *)
Definition blocks_of_line (line : jsstring) : list Block :=
  match classify (cleanLine line) with
  | Some b => [b]
  | None => []
  end.

(** A thrown value that leaves the handler a message to show: anything
    but an [Error] whose message is the empty string. *)
Definition has_message (err : thrown) : bool :=
  match err with
  | ThrownError [] => false
  | _ => true
  end.

(** The events of the initial load. *)
Definition initial_load_event (e : event) : bool :=
  match e with
  | Mount | Fetched _ | DefaultLoadEnd _ | DefaultReadError => true
  | _ => false
  end.

(** ** What the component renders *)

(** The truthiness of a [string | null]: neither [null] nor the empty
    string. *)
Definition truthy (v : option jsstring) : bool :=
  match v with
  | Some (_ :: _) => true
  | _ => false
  end.

(** The parts of the JSX of [Home] that depend on the state: the error
    banner [{error && ...}] with its text, the spinner
    [{loading && !image && ...}], the preview [{image && ...}] with the
    source of its [img], whether the Identify button is there and not
    [disabled={loading}], and the results panel [{analysis && ...}] with
    what [formatAnalysis(analysis)] gives.  The static markup is left
    out. *)
Record View : Type := mkView {
  error_banner : option jsstring;
  spinner : bool;
  preview : option jsstring;
  can_identify : bool;
  results : option (list Element)
}.

Definition render (s : UIState) : View :=
  mkView
    (if truthy (error s) then error s else None)
    (loading s && negb (truthy (image s)))
    (if truthy (image s) then image s else None)
    (truthy (image s) && negb (loading s))
    (match analysis s with
     | [] => None
     | _ :: _ => Some (formatAnalysis (analysis s))
     end).

(** What happens to the component: an event of its environment, or a
    click on the Identify button, [onClick={() => handleAnalyze(image)}],
    which does something only when the button is rendered and enabled. *)
Inductive action : Type :=
| External (e : event)
| ClickIdentify.

Definition act (a : action) : M unit :=
  match a with
  | External e => handle e
  | ClickIdentify =>
      fun w =>
        if can_identify (render (ui w))
        then handleAnalyze_start (image (ui w)) w
        else ret tt w
  end.

Fixpoint play (acts : list action) (w : World) : World :=
  match acts with
  | [] => w
  | a :: acts' => play acts' (exec (act a) w)
  end.

(** ** More vocabulary *)

(** A string with no white space at either end. *)
Definition trimmed (s : jsstring) : Prop :=
  no_leading_space s = true /\ no_trailing_space s = true.

(** A character that [cleanLine] removes wherever a line has nothing
    else: a markup character or white space. *)
Definition blank_char (c : char16) : bool :=
  is_markup c || is_space c.

(** An element with its key moved up by [n]. *)
Definition shift (n : nat) (e : Element) : Element :=
  mkElement (n + key e) (block e).

(** A fetch outcome that lets the initial load go on to read the blob:
    an ok response whose body can be read. *)
Definition fetch_usable (r : fetched) : bool :=
  match r with
  | FetchResponse true (Some _) => true
  | _ => false
  end.

(** A call that, if it asks for an analysis, asks with [carPrompt]. *)
Definition uses_carPrompt (c : call) : Prop :=
  match c with
  | AnalyzeImage _ prompt => prompt = carPrompt
  | _ => True
  end.

(** ** Facts about the string operations *)

Section StringFacts.

Variable p : char16 -> bool.

Lemma dropWhile_all (s : jsstring) :
  dropWhile p s = [] <-> forallb p s = true.
Proof.
  induction s as [|c s IH]; simpl.
  - tauto.
  - destruct (p c); simpl; [exact IH | split; discriminate].
Qed.

Lemma dropWhile_stop (a : jsstring) (c : char16) (rest : jsstring) :
  forallb p a = true -> p c = false ->
  dropWhile p (a ++ c :: rest) = c :: rest.
Proof.
  intros Ha Hc. induction a as [|x a IH]; simpl in *.
  - now rewrite Hc.
  - apply andb_true_iff in Ha as [Hx Ha]. rewrite Hx. now apply IH.
Qed.

Lemma dropWhile_prefix (a t : jsstring) :
  forallb p a = true ->
  match t with [] => True | c :: _ => p c = false end ->
  dropWhile p (a ++ t) = t.
Proof.
  intros Ha Ht. destruct t as [|c t].
  - rewrite app_nil_r. now apply dropWhile_all.
  - now apply dropWhile_stop.
Qed.

(** What [dropWhile] removes satisfies [p], and what is left does not
    start with a [p]. *)
Lemma dropWhile_span (s : jsstring) :
  exists a, forallb p a = true /\ s = a ++ dropWhile p s /\
            match dropWhile p s with [] => True | c :: _ => p c = false end.
Proof.
  induction s as [|c s (a & Ha & Hs & Hd)]; simpl.
  - exists []. repeat split.
  - destruct (p c) eqn:Hc.
    + exists (c :: a). simpl. rewrite Hc, Ha. repeat split; trivial.
      now f_equal.
    + exists []. repeat split. exact Hc.
Qed.

Lemma Forall_dropWhile (Q : char16 -> Prop) (s : jsstring) :
  Forall Q s -> Forall Q (dropWhile p s).
Proof.
  induction 1 as [|c s Hc Hs IH]; simpl; [constructor|].
  destruct (p c); [exact IH | now constructor].
Qed.

End StringFacts.

Lemma trim_empty (s : jsstring) :
  trim s = [] <-> forallb is_space s = true.
Proof.
  unfold trim. split.
  - intros H.
    assert (Hr : dropWhile is_space (rev (dropWhile is_space s)) = []).
    { destruct (dropWhile is_space (rev (dropWhile is_space s))); trivial.
      simpl in H. now apply app_eq_nil in H as [_ H]. }
    apply dropWhile_all in Hr.
    destruct (dropWhile_span is_space s) as (a & Ha & Hs & Hd).
    destruct (dropWhile is_space s) as [|c t] eqn:E.
    + now apply dropWhile_all.
    + rewrite forallb_forall in Hr.
      rewrite (Hr c) in Hd; [discriminate|].
      apply in_rev. rewrite rev_involutive. now left.
  - intros H. apply dropWhile_all in H. now rewrite H.
Qed.

(** [trim] takes the white space off both ends and nothing else. *)
Lemma trim_core (ws1 core ws2 : jsstring) :
  forallb is_space ws1 = true ->
  forallb is_space ws2 = true ->
  no_leading_space core = true ->
  no_trailing_space core = true ->
  trim (ws1 ++ core ++ ws2) = core.
Proof.
  intros H1 H2 Hl Ht. destruct core as [|c core].
  - simpl. apply trim_empty. rewrite forallb_app, H1, H2. reflexivity.
  - unfold trim.
    rewrite dropWhile_prefix; trivial.
    + rewrite rev_app_distr, dropWhile_prefix.
      * apply rev_involutive.
      * rewrite forallb_forall in *. intros x Hx. apply H2.
        now apply in_rev.
      * unfold no_trailing_space, no_leading_space in Ht.
        destruct (rev (c :: core)); [trivial | now apply negb_true_iff].
    + simpl in *. now apply negb_true_iff.
Qed.

Lemma Forall_trim (Q : char16 -> Prop) (s : jsstring) :
  Forall Q s -> Forall Q (trim s).
Proof.
  intros H. unfold trim.
  apply Forall_rev, Forall_dropWhile, Forall_rev, Forall_dropWhile, H.
Qed.

Lemma split_nonempty (sep : char16) (s : jsstring) : split sep s <> [].
Proof.
  destruct s as [|c s]; simpl; [discriminate|].
  destruct (c =? sep)%N; [discriminate|].
  destruct (split sep s); discriminate.
Qed.

(** Splitting at the first separator. *)
Lemma split_first (sep : char16) (before after : jsstring) :
  lacks sep before = true ->
  split sep (before ++ sep :: after) = before :: split sep after.
Proof.
  unfold lacks. intros H. induction before as [|c b IH]; simpl in *.
  - now rewrite N.eqb_refl.
  - apply andb_true_iff in H as [Hc Hb].
    apply negb_true_iff in Hc. rewrite Hc, (IH Hb). reflexivity.
Qed.

(** Joining what was split gives the string back: the separators beyond
    the first part are kept. *)
Lemma join_split (sep : char16) (s : jsstring) :
  join sep (split sep s) = s.
Proof.
  induction s as [|c s IH]; simpl; [reflexivity|].
  destruct (N.eqb_spec c sep) as [->|Hne].
  - destruct (split sep s) as [|q qs] eqn:E.
    + now apply split_nonempty in E.
    + change (join sep ([] :: q :: qs)) with (sep :: join sep (q :: qs)).
      now rewrite IH.
  - destruct (split sep s) as [|q qs] eqn:E.
    + now apply split_nonempty in E.
    + rewrite <- IH. destruct qs; reflexivity.
Qed.

Lemma Forall_split (Q : char16 -> Prop) (sep : char16) (s : jsstring) :
  Forall Q s -> Forall (Forall Q) (split sep s).
Proof.
  induction 1 as [|c s Hc Hs IH]; simpl.
  - repeat constructor.
  - destruct (c =? sep)%N.
    + constructor; [constructor | exact IH].
    + destruct (split sep s) as [|q qs].
      * repeat constructor; assumption.
      * inversion IH; subst. constructor; [now constructor | assumption].
Qed.

Lemma Forall_join (Q : char16 -> Prop) (sep : char16) (l : list jsstring) :
  Q sep -> Forall (Forall Q) l -> Forall Q (join sep l).
Proof.
  intros Hsep. induction 1 as [|q qs Hq Hqs IH]; [constructor|].
  destruct qs as [|r rs]; [exact Hq|].
  change (join sep (q :: r :: rs)) with (q ++ sep :: join sep (r :: rs)).
  apply Forall_app. split; [exact Hq | now constructor].
Qed.

Lemma includes_char (c : char16) (s : jsstring) :
  includes [c] s = existsb (fun x => (c =? x)%N) s.
Proof.
  induction s as [|x s IH]; simpl; [reflexivity|].
  now rewrite IH, andb_true_r.
Qed.

(** The first occurrence of a character a string includes. *)
Lemma includes_first (c : char16) (s : jsstring) :
  includes [c] s = true ->
  exists before after,
    s = before ++ c :: after /\ lacks c before = true.
Proof.
  unfold lacks. rewrite includes_char.
  induction s as [|x s IH]; simpl; [discriminate|].
  destruct (N.eqb_spec c x) as [->|Hne]; simpl.
  - intros _. exists [], s. now split.
  - intros H. destruct (IH H) as (b & a & -> & Hb).
    exists (x :: b), a. split; [reflexivity|]. simpl. rewrite Hb.
    destruct (N.eqb_spec x c); [congruence | reflexivity].
Qed.

(** [match_header] is the match of [/^\d+\./]: one or more digits, then a
    period. *)
Lemma match_header_digits (ds rest : jsstring) :
  ds <> [] -> forallb is_digit ds = true ->
  match_header (ds ++ DOT :: rest) = Some rest.
Proof.
  intros Hne Hds. unfold match_header.
  destruct ds as [|d ds]; [contradiction|].
  change ((d :: ds) ++ DOT :: rest) with (d :: (ds ++ DOT :: rest)).
  pose proof Hds as Hd. simpl in Hd. apply andb_true_iff in Hd as [Hd _].
  rewrite Hd.
  change (d :: (ds ++ DOT :: rest)) with ((d :: ds) ++ DOT :: rest).
  rewrite dropWhile_stop by (exact Hds || reflexivity).
  reflexivity.
Qed.

Lemma match_header_inv (s rest : jsstring) :
  match_header s = Some rest ->
  exists ds, ds <> [] /\ forallb is_digit ds = true /\ s = ds ++ DOT :: rest.
Proof.
  unfold match_header. destruct s as [|c s]; [discriminate|].
  destruct (is_digit c) eqn:Hc; [|discriminate].
  destruct (dropWhile_span is_digit (c :: s)) as (a & Ha & Hs & _).
  destruct (dropWhile is_digit (c :: s)) as [|d r]; [discriminate|].
  destruct (N.eqb_spec d DOT) as [->|]; [|discriminate].
  intros [= ->]. exists a. repeat split; trivial.
  intros ->. simpl in Hs. injection Hs as -> _. discriminate.
Qed.

Lemma match_header_suffix (Q : char16 -> Prop) (s rest : jsstring) :
  match_header s = Some rest -> Forall Q s -> Forall Q rest.
Proof.
  intros H Hs. apply match_header_inv in H as (ds & _ & _ & ->).
  apply Forall_app in Hs as [_ Hs]. now inversion Hs.
Qed.

(** ** The formatter, line by line *)

Lemma test_header_dash (s : jsstring) : test_header (DASH :: s) = false.
Proof. reflexivity. Qed.

Lemma classify_none (cl : jsstring) : classify cl = None <-> cl = [].
Proof.
  split; [|intros ->; reflexivity].
  destruct cl as [|c s]; [reflexivity|]. unfold classify.
  destruct (test_header (c :: s)); [discriminate|].
  destruct (startsWith [DASH] (c :: s) && includes [COLON] (c :: s));
    [discriminate|].
  destruct (startsWith [DASH] (c :: s)); discriminate.
Qed.

(** A cleaned line that starts with a dash and includes a colon has a
    first colon. *)
Lemma dash_colon_line (cl : jsstring) :
  startsWith [DASH] cl = true -> includes [COLON] cl = true ->
  exists before after,
    cl = DASH :: before ++ COLON :: after /\ lacks COLON before = true.
Proof.
  destruct cl as [|c s]; [discriminate|]. cbn [startsWith].
  rewrite andb_true_r. intros Hc%N.eqb_eq. subst c. intros Hi.
  assert (Hs : includes [COLON] s = true).
  { rewrite includes_char in *. exact Hi. }
  destruct (includes_first _ _ Hs) as (b & a & -> & Hb).
  now exists b, a.
Qed.

(** A cleaned line that passes the header test is a numeral, a period,
    white space and a title that does not start with white space. *)
Lemma header_line_shape (cl : jsstring) :
  test_header cl = true ->
  exists ds ws title,
    ds <> [] /\ forallb is_digit ds = true /\ forallb is_space ws = true
    /\ no_leading_space title = true /\ cl = ds ++ DOT :: ws ++ title.
Proof.
  unfold test_header. destruct (match_header cl) as [rest|] eqn:Hm;
    [intros _ | discriminate].
  apply match_header_inv in Hm as (ds & Hne & Hds & ->).
  destruct (dropWhile_span is_space rest) as (ws & Hws & Hrest & Hd).
  exists ds, ws, (dropWhile is_space rest). repeat split; trivial.
  - destruct (dropWhile is_space rest); [reflexivity|]. simpl.
    now rewrite Hd.
  - now rewrite <- Hrest.
Qed.

Section Lines.

Variable Q : char16 -> Prop.
Hypothesis Q_colon : Q COLON.

Lemma classify_fields (cl : jsstring) (b : Block) :
  Forall Q cl -> classify cl = Some b -> Forall (Forall Q) (fields b).
Proof.
  intros Hcl. destruct cl as [|c s]; [discriminate|].
  unfold classify.
  assert (Htl : Forall Q (substring1 (c :: s))) by now inversion Hcl.
  destruct (test_header (c :: s)) eqn:Hh.
  - intros [= <-]. repeat constructor. unfold strip_header.
    unfold test_header in Hh.
    destruct (match_header (c :: s)) as [rest|] eqn:Hm; [|discriminate].
    apply Forall_dropWhile. exact (match_header_suffix Q _ _ Hm Hcl).
  - pose proof (Forall_split Q COLON _ Htl) as Hparts.
    destruct (startsWith [DASH] (c :: s) && includes [COLON] (c :: s)).
    + intros [= <-]. cbn [fields]. unfold substring1 in *. cbn [tl] in *.
      assert (Hhd : Forall Q (hd [] (split COLON s)))
        by (destruct Hparts; [constructor | assumption]).
      assert (Htls : Forall (Forall Q) (tl (split COLON s)))
        by (destruct Hparts; [constructor | assumption]).
      constructor; [now apply Forall_trim|].
      constructor; [|constructor].
      now apply Forall_trim, Forall_join.
    + destruct (startsWith [DASH] (c :: s)); intros [= <-];
        (constructor; [|constructor]).
      * now apply Forall_trim.
      * exact Hcl.
Qed.

End Lines.

Lemma cleanLine_no_markup (line : jsstring) :
  Forall (fun c => is_markup c = false) (cleanLine line).
Proof.
  apply Forall_trim, Forall_forall. intros c Hc.
  apply filter_In in Hc as [_ Hc]. now apply negb_true_iff.
Qed.

Lemma cleanLine_empty (line : jsstring) :
  cleanLine line = [] <-> forallb is_space (remove_markup line) = true.
Proof. apply trim_empty. Qed.

(** The elements made from the lines [l], the first of which has index
    [k]. *)
Lemma blocks_from (k : nat) (l : list jsstring) :
  map block (filterBoolean (mapi_from formatLine k l))
  = flat_map blocks_of_line l.
Proof.
  revert k. induction l as [|x l IH]; intros k; [reflexivity|].
  simpl. unfold formatLine at 1, blocks_of_line at 1.
  destruct (classify (cleanLine x)); simpl; now rewrite IH.
Qed.

Lemma In_from (k : nat) (l : list jsstring) (i : nat) (b : Block) :
  In (mkElement i b) (filterBoolean (mapi_from formatLine k l)) <->
  exists line, k <= i /\ nth_error l (i - k) = Some line
               /\ classify (cleanLine line) = Some b.
Proof.
  revert k. induction l as [|x l IH]; intros k.
  - simpl. split; [tauto|]. intros (line & _ & H & _).
    now destruct (i - k).
  - assert (Hrest :
      In (mkElement i b) (filterBoolean (mapi_from formatLine (S k) l)) <->
      exists line, k < i /\ nth_error (x :: l) (i - k) = Some line
                   /\ classify (cleanLine line) = Some b).
    { rewrite IH. split; intros (line & Hk & Hn & Hc); exists line;
        (split; [lia|]); (split; [|exact Hc]).
      - replace (i - k) with (S (i - S k)) by lia. exact Hn.
      - replace (i - k) with (S (i - S k)) in Hn by lia. exact Hn. }
    simpl mapi_from. unfold formatLine at 1.
    destruct (classify (cleanLine x)) as [b0|] eqn:Hx; simpl filterBoolean.
    + split.
      * intros [[= <- <-] | H].
        -- exists x. rewrite Nat.sub_diag. now repeat split.
        -- apply Hrest in H as (line & Hk & H). exists line.
           split; [lia | exact H].
      * intros (line & Hk & Hn & Hc).
        destruct (Nat.eq_dec i k) as [->|Hne].
        -- rewrite Nat.sub_diag in Hn. injection Hn as <-.
           left. congruence.
        -- right. apply Hrest. exists line. repeat split; trivial. lia.
    + rewrite Hrest. split; intros (line & Hk & Hn & Hc); exists line.
      * split; [lia | now split].
      * destruct (Nat.eq_dec i k) as [->|Hne].
        -- rewrite Nat.sub_diag in Hn. injection Hn as <-. congruence.
        -- repeat split; trivial. lia.
Qed.


Lemma fields_from (Q : char16 -> Prop) (k : nat) (l : list jsstring) :
  (forall line b, classify (cleanLine line) = Some b ->
                  Forall (Forall Q) (fields b)) ->
  Forall (fun e => Forall (Forall Q) (fields (block e)))
         (filterBoolean (mapi_from formatLine k l)).
Proof.
  intros H. revert k. induction l as [|x l IH]; intros k; [constructor|].
  simpl. unfold formatLine at 1.
  destruct (classify (cleanLine x)) eqn:Hx; [|apply IH].
  constructor; [exact (H _ _ Hx) | apply IH].
Qed.

(** C5: a line whose cleaned form is one or more digits, a period, white
    space and then [title] is rendered as the section header [title]:
    the numeral, the period and the white space after it are gone and
    the rest is kept. *)
Theorem section_header_line
  (line ds ws title : jsstring) (index : nat) :
  ds <> [] ->
  forallb is_digit ds = true ->
  forallb is_space ws = true ->
  no_leading_space title = true ->
  cleanLine line = ds ++ DOT :: ws ++ title ->
  formatLine line index = Some (mkElement index (SectionHeader title)).
Proof.
  intros Hne Hds Hws Ht Hcl. unfold formatLine. rewrite Hcl.
  assert (Hm : match_header (ds ++ DOT :: ws ++ title) = Some (ws ++ title))
    by now apply match_header_digits.
  assert (Hc : classify (ds ++ DOT :: ws ++ title)
               = Some (SectionHeader title)).
  { unfold classify, test_header, strip_header. rewrite Hm.
    destruct ds as [|d ds]; [contradiction|]. simpl app. cbv iota.
    rewrite dropWhile_prefix; trivial.
    destruct title; [trivial | now apply negb_true_iff]. }
  now rewrite Hc.
Qed.

(** The line of the specification's example. *)
Lemma section_header_car_identification :
  cleanLine (lit "1. Car Identification:")
    = lit "1" ++ DOT :: lit " " ++ lit "Car Identification:"
  /\ formatLine (lit "1. Car Identification:") 0
     = Some (mkElement 0 (SectionHeader (lit "Car Identification:"))).
Proof.
  split; [reflexivity|].
  apply (section_header_line
           (lit "1. Car Identification:") (lit "1") (lit " ")
           (lit "Car Identification:") 0);
    [discriminate | reflexivity | reflexivity | reflexivity | reflexivity].
Defined.

(** C6: a line whose cleaned form is a dash, a text [before] without a
    colon, a colon and a text [after] is rendered as the labelled item
    with label [before], trimmed, and value [after], trimmed: the split
    is at the first colon and later colons stay in the value.  Such a
    line never matches the header pattern, which wants a digit first. *)
Theorem labeled_item_line
  (line before after : jsstring) (index : nat) :
  cleanLine line = DASH :: before ++ COLON :: after ->
  lacks COLON before = true ->
  formatLine line index
  = Some (mkElement index (LabeledItem (trim before) (trim after))).
Proof.
  intros Hcl Hb. unfold formatLine. rewrite Hcl.
  assert (Hi : includes [COLON] (DASH :: before ++ COLON :: after) = true).
  { rewrite includes_char. simpl. rewrite existsb_app. simpl.
    apply orb_true_r. }
  unfold classify. rewrite test_header_dash, Hi.
  change (startsWith [DASH] (DASH :: before ++ COLON :: after)) with true.
  cbv iota. simpl andb. cbv iota.
  unfold substring1. simpl tl. rewrite split_first by exact Hb.
  simpl hd. simpl tl. now rewrite join_split.
Qed.

(** The line of the specification's example. *)
Lemma labeled_item_make_porsche :
  cleanLine (lit "- Make: Porsche") = DASH :: lit " Make" ++ COLON :: lit " Porsche"
  /\ formatLine (lit "- Make: Porsche") 1
     = Some (mkElement 1 (LabeledItem (lit "Make") (lit "Porsche"))).
Proof.
  split; [reflexivity|].
  apply (labeled_item_line
           (lit "- Make: Porsche") (lit " Make") (lit " Porsche") 1);
    reflexivity.
Defined.


(** C10: no title, label, value or text of an emitted block holds one of
    the characters [*], [_], [#] and [`]. *)
Theorem no_markup_in_blocks
  (text : jsstring) (e : Element) (f : jsstring) (c : char16) :
  In e (formatAnalysis text) ->
  In f (fields (block e)) ->
  In c f ->
  is_markup c = false.
Proof.
  intros He Hf Hc.
  pose proof (fields_from (fun c => is_markup c = false) 0 (split LF text))
    as H.
  unfold formatAnalysis in He.
  rewrite Forall_forall in H. specialize (H
    (fun line b Hb =>
       classify_fields _ eq_refl _ _ (cleanLine_no_markup line) Hb) e He).
  rewrite Forall_forall in H. specialize (H f Hf).
  rewrite Forall_forall in H. exact (H c Hc).
Qed.

(** A line with markup inside its words, not only at its edges. *)
Lemma no_markup_in_bold_make :
  let text := lit "- **Ma_ke**: Por#sche `911`" in
  let e := mkElement 0 (LabeledItem (lit "Make") (lit "Porsche 911")) in
  formatAnalysis text = [e]
  /\ is_markup (N_of_ascii "P") = false.
Proof.
  cbv zeta. split; [reflexivity|].
  apply (no_markup_in_blocks
           (lit "- **Ma_ke**: Por#sche `911`")
           (mkElement 0 (LabeledItem (lit "Make") (lit "Porsche 911")))
           (lit "Porsche 911") (N_of_ascii "P")).
  - left. reflexivity.
  - right. left. reflexivity.
  - left. reflexivity.
Defined.

(** The lines of the specification's other examples: a bullet, a blank
    line, a value with colons of its own, and Windows line ends. *)
Example formatAnalysis_examples :
  formatAnalysis (lit "- Rear-wheel drive")
  = [mkElement 0 (BulletItem (lit "Rear-wheel drive"))]
  /\ formatAnalysis (lit "   ") = []
  /\ formatAnalysis [] = []
  /\ formatAnalysis (lit "- Ratio: 16:9: wide")
     = [mkElement 0 (LabeledItem (lit "Ratio") (lit "16:9: wide"))]
  /\ formatAnalysis (lit "## 2. Specs" ++ [13; 10; 13; 10]%N ++ lit "plain")
     = [mkElement 0 (SectionHeader (lit "Specs"));
        mkElement 2 (ParagraphText (lit "plain"))].
Proof. repeat split. Qed.

(** The canned analysis, formatted: 32 elements, the blank lines 7, 15,
    22 and 29 left out. *)
Example formatAnalysis_default :
  map key (formatAnalysis DEFAULT_ANALYSIS)
  = [0; 1; 2; 3; 4; 5; 6; 8; 9; 10; 11; 12; 13; 14; 16; 17; 18; 19; 20;
     21; 23; 24; 25; 26; 27; 28; 30; 31; 32; 33; 34; 35]
  /\ firstn 2 (map block (formatAnalysis DEFAULT_ANALYSIS))
     = [SectionHeader (lit "Car Identification:");
        LabeledItem (lit "Make") (lit "Porsche")]
  /\ nth_error (map block (formatAnalysis DEFAULT_ANALYSIS)) 12
     = Some (LabeledItem (lit "0-60 mph") (lit "Around 3.5 seconds")).
Proof. vm_compute. repeat split. Qed.

(** ** The handlers *)

Lemma app_neq_self {A : Type} (l : list A) (x : A) (m : list A) :
  l ++ x :: m <> l.
Proof.
  intros H. apply (f_equal (@length A)) in H.
  rewrite length_app in H. simpl in H. lia.
Qed.

(** The initial load never asks for an analysis. *)
Lemma initial_load_no_analysis (es : list event) (w : World) :
  forallb initial_load_event es = true ->
  filter is_analysis_call (calls (run es w))
  = filter is_analysis_call (calls w).
Proof.
  revert w. induction es as [|e es IH]; intros w H; [reflexivity|].
  simpl in H. apply andb_true_iff in H as [He Hes].
  simpl run. rewrite (IH _ Hes).
  destruct e as [ |r|result| | | | | ]; try discriminate; simpl.
  - now rewrite filter_app, app_nil_r.
  - destruct r as [|[|] [blob|]]; simpl; rewrite ?filter_app;
      simpl; now rewrite ?app_nil_r.
  - reflexivity.
  - reflexivity.
Qed.

(** The failure path of [handleAnalyze] touches neither the analysis
    nor the image, in whatever state the call settles. *)
Lemma analyze_rejected_frame (err : thrown) (w : World) :
  let w' := exec (handleAnalyze_after (Rejected err)) w in
  analysis (ui w') = analysis (ui w) /\ image (ui w') = image (ui w)
  /\ calls w' = calls w.
Proof. cbv zeta. repeat split. Qed.





(** C9: a change event without a file leaves the state as it is and
    makes no call. *)
Theorem upload_without_file (w : World) :
  handleImageUpload None w = (tt, w)
  /\ handleImageUpload (Some []) w = (tt, w).
Proof. split; reflexivity. Qed.

(** C2, as amended: a file whose declared type does not start with
    [image/] is rejected with an error and nothing is read; a file that
    the handler starts to read has a type that starts with [image/]. *)
Theorem upload_type_check
  (file : File) (rest : list File) (w : World) :
  let w' := exec (handleImageUpload (Some (file :: rest))) w in
  (startsWith (lit "image/") (type file) = false ->
   rejected_with (lit "Please upload a valid image file") w w')
  /\ (read_started file w w' ->
      startsWith (lit "image/") (type file) = true).
Proof.
  cbv zeta. unfold exec, handleImageUpload. split.
  - intros H. rewrite H. split; reflexivity.
  - intros [_ Hc]. destruct (startsWith (lit "image/") (type file));
      [reflexivity|].
    simpl in Hc. symmetry in Hc. now apply app_neq_self in Hc.
Qed.

Lemma text_file_is_rejected :
  let file := mkBlob (lit "text/plain") 12 in
  startsWith (lit "image/") (type file) = false
  /\ rejected_with (lit "Please upload a valid image file") initial
       (exec (handleImageUpload (Some [file])) initial).
Proof.
  cbv zeta. split; [reflexivity|].
  apply (proj1 (upload_type_check (mkBlob (lit "text/plain") 12) []
                  initial)).
  reflexivity.
Defined.

(** The types of the [accept] attribute pass the type check. *)
Lemma accept_types_pass :
  forallb (startsWith (lit "image/")) accept = true.
Proof. reflexivity. Qed.

(** C2, as stated, fails for a GIF: its type is none of the four, and
    the handler starts to read it. *)
Lemma upload_gif_is_read :
  let gif := mkBlob (lit "image/gif") 1024 in
  ~ In (type gif) accept
  /\ read_started gif initial (exec (handleImageUpload (Some [gif])) initial)
  /\ ~ (exists msg,
          rejected_with msg initial
            (exec (handleImageUpload (Some [gif])) initial)).
Proof.
  cbv zeta. split; [|split].
  - simpl. intros [H|[H|[H|[H|[]]]]]; vm_compute in H; discriminate.
  - split; reflexivity.
  - intros (msg & _ & H). discriminate.
Qed.

(** C3: for a file whose type passed the check, the handler rejects it
    with an error, making no call of any kind, exactly when its size is
    over 20 * 1024 * 1024 bytes; up to that size it starts to read the
    file. *)
Theorem upload_size_check
  (file : File) (rest : list File) (w : World) :
  startsWith (lit "image/") (type file) = true ->
  let w' := exec (handleImageUpload (Some (file :: rest))) w in
  ((exists msg, rejected_with msg w w')
   <-> (20 * 1024 * 1024 < size file)%N)
  /\ ((20 * 1024 * 1024 < size file)%N ->
      rejected_with (lit "Image size should be less than 20MB") w w')
  /\ ((size file <= 20 * 1024 * 1024)%N -> read_started file w w').
Proof.
  intros Ht. cbv zeta. unfold exec, handleImageUpload. rewrite Ht.
  cbn [negb].
  destruct (N.ltb_spec (20 * 1024 * 1024) (size file)) as [Hgt|Hle].
  - split; [split|split].
    + trivial.
    + intros _. eexists. split; reflexivity.
    + intros _. split; reflexivity.
    + lia.
  - split; [split|split].
    + intros (msg & _ & Hc). simpl in Hc. rewrite <- app_assoc in Hc.
      now apply app_neq_self in Hc.
    + lia.
    + lia.
    + intros _. split; [reflexivity|]. simpl. now rewrite <- app_assoc.
Qed.

(** Exactly 20 MiB is read; one byte more is rejected. *)
Lemma twenty_mib_boundary :
  let exact := mkBlob (lit "image/png") 20971520 in
  let over := mkBlob (lit "image/png") 20971521 in
  startsWith (lit "image/") (type exact) = true
  /\ read_started exact initial
       (exec (handleImageUpload (Some [exact])) initial)
  /\ rejected_with (lit "Image size should be less than 20MB") initial
       (exec (handleImageUpload (Some [over])) initial).
Proof.
  cbv zeta. split; [reflexivity|]. split.
  - apply (upload_size_check (mkBlob (lit "image/png") 20971520) []
             initial eq_refl).
    discriminate.
  - apply (upload_size_check (mkBlob (lit "image/png") 20971521) []
             initial eq_refl).
    reflexivity.
Defined.

(** C4, as amended: when the fetch of the default image gives an ok
    response and its blob is read, the state after the initial load has
    the canned analysis and the data read from that blob as the image,
    no error and no loading flag; the load made one fetch, of the
    default image's path, one read, and no analysis call. *)
Theorem first_load_success (blob : Blob) (data : jsstring) :
  let w := run [Mount; Fetched (FetchResponse true (Some blob));
                DefaultLoadEnd (Some data)] initial in
  analysis (ui w) = DEFAULT_ANALYSIS
  /\ image (ui w) = Some data
  /\ loading (ui w) = false
  /\ error (ui w) = None
  /\ calls w = [Fetch DEFAULT_IMAGE; ReadAsDataURL blob]
  /\ filter is_analysis_call (calls w) = [].
Proof. cbv zeta. repeat split. Qed.

(** C4, as stated, fails when the fetch of the default image fails: the
    analysis stays empty and there is no image; and the load did go to
    the network, for the image. *)
Lemma first_load_fetch_rejected :
  let w := run [Mount; Fetched FetchRejected] initial in
  analysis (ui w) = []
  /\ analysis (ui w) <> DEFAULT_ANALYSIS
  /\ image (ui w) = None
  /\ filter is_network_call (calls w) = [Fetch DEFAULT_IMAGE].
Proof.
  cbv zeta. repeat split. vm_compute. discriminate.
Qed.

(** ** More about the formatter *)

Lemma dropWhile_head (p : char16 -> bool) (s : jsstring) :
  match dropWhile p s with [] => True | c :: _ => p c = false end.
Proof. destruct (dropWhile_span p s) as (_ & _ & _ & H). exact H. Qed.

Lemma no_leading_dropWhile (s : jsstring) :
  no_leading_space (dropWhile is_space s) = true.
Proof.
  pose proof (dropWhile_head is_space s) as H.
  destruct (dropWhile is_space s); [reflexivity|]. simpl. now rewrite H.
Qed.

(** A suffix of a string that does not end with white space does not
    either. *)
Lemma no_trailing_suffix (a t : jsstring) :
  no_trailing_space (a ++ t) = true -> no_trailing_space t = true.
Proof.
  unfold no_trailing_space. rewrite rev_app_distr.
  destruct (rev t) as [|c r] eqn:E; [reflexivity|]. simpl. trivial.
Qed.

Lemma trim_trimmed (s : jsstring) : trimmed (trim s).
Proof.
  unfold trimmed, no_trailing_space, trim. rewrite rev_involutive.
  split; [|apply no_leading_dropWhile].
  destruct (dropWhile_span is_space (rev (dropWhile is_space s)))
    as (a & _ & Hs & _).
  pose proof (no_leading_dropWhile s) as Hl.
  apply (f_equal (@rev char16)) in Hs.
  rewrite rev_involutive, rev_app_distr in Hs.
  destruct (rev (dropWhile is_space (rev (dropWhile is_space s))))
    as [|c r]; [reflexivity|].
  rewrite Hs in Hl. exact Hl.
Qed.

Lemma trimmed_fixed (s : jsstring) : trimmed s -> trim s = s.
Proof.
  intros [Hl Ht].
  pose proof (trim_core [] s [] eq_refl eq_refl Hl Ht) as H.
  now rewrite app_nil_r in H.
Qed.

Lemma remove_markup_fixed (s : jsstring) :
  Forall (fun c => is_markup c = false) s -> remove_markup s = s.
Proof.
  unfold remove_markup. induction 1 as [|c s Hc Hs IH]; simpl;
    [reflexivity|]. now rewrite Hc, IH.
Qed.

Lemma split_app (sep : char16) (a b : jsstring) :
  split sep (a ++ sep :: b) = split sep a ++ split sep b.
Proof.
  induction a as [|c a IH]; simpl.
  - now rewrite N.eqb_refl.
  - rewrite IH. destruct (c =? sep)%N; [reflexivity|].
    destruct (split sep a) as [|q qs] eqn:E; [|reflexivity].
    now apply split_nonempty in E.
Qed.

Lemma split_parts_lack (sep : char16) (s : jsstring) :
  Forall (Forall (fun c => c <> sep)) (split sep s).
Proof.
  induction s as [|c s IH]; simpl.
  - repeat constructor.
  - destruct (N.eqb_spec c sep) as [->|Hne].
    + constructor; [constructor | exact IH].
    + destruct (split sep s) as [|q qs].
      * repeat constructor; assumption.
      * inversion IH; subst. constructor; [now constructor | assumption].
Qed.

Lemma mapi_from_app {A B : Type} (f : A -> nat -> B) (k : nat)
  (l1 l2 : list A) :
  mapi_from f k (l1 ++ l2)
  = mapi_from f k l1 ++ mapi_from f (length l1 + k) l2.
Proof.
  revert k. induction l1 as [|x l1 IH]; intros k; simpl; [reflexivity|].
  rewrite IH. do 3 f_equal. lia.
Qed.

Lemma filterBoolean_app {A : Type} (l1 l2 : list (option A)) :
  filterBoolean (l1 ++ l2) = filterBoolean l1 ++ filterBoolean l2.
Proof.
  induction l1 as [|[x|] l1 IH]; simpl; [reflexivity| |exact IH].
  now rewrite IH.
Qed.

Lemma from_shift (n k : nat) (l : list jsstring) :
  filterBoolean (mapi_from formatLine (n + k) l)
  = map (shift n) (filterBoolean (mapi_from formatLine k l)).
Proof.
  revert k. induction l as [|x l IH]; intros k; [reflexivity|].
  cbn [mapi_from]. replace (S (n + k)) with (n + S k) by lia.
  assert (Hf : forall i, formatLine x i
                         = match classify (cleanLine x) with
                           | Some b => Some (mkElement i b)
                           | None => None
                           end) by reflexivity.
  rewrite !Hf.
  destruct (classify (cleanLine x)); cbn [filterBoolean map];
    now rewrite IH.
Qed.

Lemma blank_line_chars (line : jsstring) :
  forallb is_space (remove_markup line) = forallb blank_char line.
Proof.
  unfold remove_markup, blank_char.
  induction line as [|c l IH]; simpl; [reflexivity|].
  destruct (is_markup c); simpl; now rewrite IH.
Qed.

Lemma blocks_of_line_nil (line : jsstring) :
  blocks_of_line line = [] <-> forallb blank_char line = true.
Proof.
  rewrite <- blank_line_chars, <- cleanLine_empty, <- classify_none.
  unfold blocks_of_line. destruct (classify (cleanLine line));
    split; congruence.
Qed.

(** A text is blank throughout exactly when each of its lines is. *)
Lemma blank_lines (text : jsstring) :
  forallb blank_char text = true <->
  Forall (fun line => forallb blank_char line = true) (split LF text).
Proof.
  induction text as [|c t IH]; simpl.
  - split; [repeat constructor | reflexivity].
  - destruct (N.eqb_spec c LF) as [->|Hne].
    + change (blank_char LF) with true. simpl. rewrite IH.
      split; [now constructor | now inversion 1].
    + destruct (split LF t) as [|q qs] eqn:E;
        [now apply split_nonempty in E|].
      rewrite andb_true_iff, IH. split.
      * intros [Hc H]. inversion H; subst. constructor; trivial.
        simpl. now rewrite Hc.
      * inversion 1 as [|? ? Hq Hqs]; subst. simpl in Hq.
        apply andb_true_iff in Hq as [Hc Hq]. split; trivial.
        now constructor.
Qed.

Lemma no_blocks_iff (text : jsstring) :
  formatAnalysis text = [] <-> forallb blank_char text = true.
Proof.
  rewrite blank_lines.
  assert (H : formatAnalysis text = []
              <-> flat_map blocks_of_line (split LF text) = []).
  { unfold formatAnalysis. rewrite <- (blocks_from 0).
    destruct (filterBoolean _); simpl; split; congruence. }
  rewrite H. clear H.
  induction (split LF text) as [|l ls IH]; simpl.
  - split; [constructor | reflexivity].
  - split.
    + intros H. apply app_eq_nil in H as [Hl Hls].
      constructor; [now apply blocks_of_line_nil | now apply IH].
    + inversion 1; subst. apply blocks_of_line_nil in H2. rewrite H2.
      now apply IH.
Qed.

(** The fields of the block of a trimmed line are trimmed. *)
Lemma classify_trimmed (cl : jsstring) (b : Block) :
  trimmed cl -> classify cl = Some b -> Forall trimmed (fields b).
Proof.
  intros Hcl. destruct cl as [|c s]; [discriminate|]. unfold classify.
  destruct (test_header (c :: s)) eqn:Hh.
  - intros [= <-]. constructor; [|constructor]. unfold strip_header.
    unfold test_header in Hh.
    destruct (match_header (c :: s)) as [rest|] eqn:Hm; [|discriminate].
    apply match_header_inv in Hm as (ds & _ & _ & Hs).
    destruct (dropWhile_span is_space rest) as (ws & _ & Hrest & _).
    split; [apply no_leading_dropWhile|].
    apply (no_trailing_suffix (ds ++ DOT :: ws)).
    rewrite <- app_assoc. simpl. rewrite <- Hrest, <- Hs. apply Hcl.
  - destruct (startsWith [DASH] (c :: s) && includes [COLON] (c :: s)).
    + intros [= <-]. repeat constructor; apply trim_trimmed.
    + destruct (startsWith [DASH] (c :: s)); intros [= <-];
        (constructor; [|constructor]); [apply trim_trimmed | exact Hcl].
Qed.

Lemma includes_cons (c x : char16) (s : jsstring) :
  includes [c] (x :: s) = (c =? x)%N || includes [c] s.
Proof. rewrite !includes_char. reflexivity. Qed.

Lemma includes_lacks (c : char16) (s : jsstring) :
  includes [c] s = negb (lacks c s).
Proof.
  rewrite includes_char. unfold lacks.
  induction s as [|x s IH]; [reflexivity|]. cbn [existsb forallb].
  rewrite IH, N.eqb_sym. now destruct (x =? c)%N.
Qed.

(** X1: a line whose cleaned form is a dash and a text without a colon
    is rendered as a bullet with that text, trimmed. *)
Theorem bullet_item_line
  (line rest : jsstring) (index : nat) :
  cleanLine line = DASH :: rest ->
  lacks COLON rest = true ->
  formatLine line index = Some (mkElement index (BulletItem (trim rest))).
Proof.
  intros Hcl Hr. unfold formatLine. rewrite Hcl.
  assert (Hi : includes [COLON] (DASH :: rest) = false).
  { rewrite includes_cons, includes_lacks, Hr. reflexivity. }
  unfold classify. rewrite test_header_dash, Hi.
  reflexivity.
Qed.

Lemma bullet_item_rear_wheel_drive :
  cleanLine (lit "- Rear-wheel drive") = DASH :: lit " Rear-wheel drive"
  /\ formatLine (lit "- Rear-wheel drive") 3
     = Some (mkElement 3 (BulletItem (lit "Rear-wheel drive"))).
Proof.
  split; [reflexivity|].
  apply (bullet_item_line (lit "- Rear-wheel drive")
           (lit " Rear-wheel drive") 3); reflexivity.
Defined.

(** X2: the classification is decided by the shape of the cleaned line,
    in this order: nothing for the empty line; a section header for a
    numeral and a period; for a line that starts with a dash, a labelled
    item if it has a colon and a bullet if not; a paragraph with the
    whole cleaned line for anything else. *)
Theorem classify_cases (cl : jsstring) :
  (cl = [] /\ classify cl = None)
  \/ (exists ds ws title,
        ds <> [] /\ forallb is_digit ds = true
        /\ forallb is_space ws = true /\ no_leading_space title = true
        /\ cl = ds ++ DOT :: ws ++ title
        /\ classify cl = Some (SectionHeader title))
  \/ (exists before after,
        cl = DASH :: before ++ COLON :: after
        /\ lacks COLON before = true
        /\ classify cl = Some (LabeledItem (trim before) (trim after)))
  \/ (exists rest,
        cl = DASH :: rest /\ lacks COLON rest = true
        /\ classify cl = Some (BulletItem (trim rest)))
  \/ (exists c s,
        cl = c :: s /\ c <> DASH /\ test_header cl = false
        /\ classify cl = Some (ParagraphText cl)).
Proof.
  destruct cl as [|c s]; [left; now split | right].
  destruct (test_header (c :: s)) eqn:Hh.
  - left. destruct (header_line_shape _ Hh)
      as (ds & ws & title & Hne & Hds & Hws & Ht & Hcl).
    exists ds, ws, title. repeat split; trivial. rewrite Hcl.
    unfold classify, test_header, strip_header.
    rewrite (match_header_digits ds (ws ++ title) Hne Hds).
    destruct ds as [|d ds]; [contradiction|]. simpl app. cbv iota.
    rewrite dropWhile_prefix; trivial.
    destruct title; [trivial | now apply negb_true_iff].
  - right. destruct (N.eqb_spec DASH c) as [<-|Hne].
    + destruct (includes [COLON] (DASH :: s)) eqn:Hi.
      * left. destruct (dash_colon_line (DASH :: s) eq_refl Hi)
          as (before & after & Hcl & Hb).
        exists before, after. repeat split; trivial.
        injection Hcl as ->. unfold classify.
        rewrite test_header_dash.
        change (startsWith [DASH] (DASH :: before ++ COLON :: after))
          with true.
        rewrite Hi. cbn [andb]. unfold substring1. cbn [tl].
        rewrite split_first by exact Hb. cbn [hd tl].
        now rewrite join_split.
      * right. left. exists s. repeat split.
        -- rewrite includes_cons, includes_lacks in Hi.
           change (COLON =? DASH)%N with false in Hi.
           now destruct (lacks COLON s).
        -- unfold classify. rewrite test_header_dash, Hi. reflexivity.
    + right. right. exists c, s. repeat split; trivial.
      * congruence.
      * unfold classify. rewrite Hh. cbn [startsWith].
        apply N.eqb_neq in Hne. rewrite Hne. reflexivity.
Qed.

Lemma In_formatAnalysis (text : jsstring) (e : Element) :
  In e (formatAnalysis text) ->
  exists line, In line (split LF text)
               /\ classify (cleanLine line) = Some (block e).
Proof.
  destruct e as [i b]. unfold formatAnalysis. intros H.
  apply In_from in H as (line & _ & Hn & Hc).
  exists line. split; [now apply nth_error_In in Hn | exact Hc].
Qed.

Lemma cleanLine_trimmed (line : jsstring) : trimmed (cleanLine line).
Proof. apply trim_trimmed. Qed.

Lemma Forall_cleanLine (Q : char16 -> Prop) (line : jsstring) :
  Forall Q line -> Forall Q (cleanLine line).
Proof.
  intros H. apply Forall_trim. rewrite Forall_forall in *.
  intros c Hc. apply filter_In in Hc as [Hc _]. now apply H.
Qed.

(** X3: every title, label, value and text of an emitted block is
    trimmed: it has no white space at its start or end, so trimming it
    again changes nothing. *)
Theorem fields_are_trimmed
  (text : jsstring) (e : Element) (f : jsstring) :
  In e (formatAnalysis text) ->
  In f (fields (block e)) ->
  trim f = f.
Proof.
  intros He Hf. apply In_formatAnalysis in He as (line & _ & Hc).
  pose proof (classify_trimmed _ _ (cleanLine_trimmed line) Hc) as H.
  rewrite Forall_forall in H. now apply trimmed_fixed, H.
Qed.

Lemma fields_are_trimmed_spaced_item :
  let text := lit "  -   Top Speed  :   191 mph   " in
  let e := mkElement 0 (LabeledItem (lit "Top Speed") (lit "191 mph")) in
  formatAnalysis text = [e]
  /\ trim (lit "191 mph") = lit "191 mph".
Proof.
  cbv zeta. split; [reflexivity|].
  apply (fields_are_trimmed
           (lit "  -   Top Speed  :   191 mph   ")
           (mkElement 0 (LabeledItem (lit "Top Speed") (lit "191 mph")))
           (lit "191 mph")).
  - left. reflexivity.
  - right. left. reflexivity.
Defined.

(** X4: no title, label, value or text of an emitted block holds a line
    feed: a block never spans two lines of the text. *)
Theorem no_line_feed_in_blocks
  (text : jsstring) (e : Element) (f : jsstring) :
  In e (formatAnalysis text) ->
  In f (fields (block e)) ->
  lacks LF f = true.
Proof.
  intros He Hf. apply In_formatAnalysis in He as (line & Hl & Hc).
  pose proof (split_parts_lack LF text) as Hlines.
  rewrite Forall_forall in Hlines. specialize (Hlines line Hl).
  assert (Hq : (fun c : char16 => c <> LF) COLON) by discriminate.
  pose proof (classify_fields (fun c => c <> LF) Hq _ _
                (Forall_cleanLine _ _ Hlines) Hc) as H.
  rewrite Forall_forall in H. specialize (H f Hf).
  unfold lacks. apply forallb_forall. intros c Hin.
  rewrite Forall_forall in H. apply negb_true_iff, N.eqb_neq.
  now apply H.
Qed.

Lemma no_line_feed_in_two_lines :
  let text := lit "Sports car" ++ [LF] ++ lit "Coupe" in
  formatAnalysis text
  = [mkElement 0 (ParagraphText (lit "Sports car"));
     mkElement 1 (ParagraphText (lit "Coupe"))]
  /\ lacks LF (lit "Coupe") = true.
Proof.
  cbv zeta. split; [reflexivity|].
  apply (no_line_feed_in_blocks
           (lit "Sports car" ++ [LF] ++ lit "Coupe")
           (mkElement 1 (ParagraphText (lit "Coupe")))
           (lit "Coupe")).
  - right. left. reflexivity.
  - left. reflexivity.
Defined.

(** X5: formatting two texts joined by a line feed gives the elements of
    the first followed by those of the second, the keys of the second
    moved up by the number of lines of the first. *)
Theorem formatAnalysis_app (a b : jsstring) :
  formatAnalysis (a ++ LF :: b)
  = formatAnalysis a
    ++ map (shift (length (split LF a))) (formatAnalysis b).
Proof.
  unfold formatAnalysis.
  rewrite split_app, mapi_from_app, filterBoolean_app. f_equal.
  apply from_shift.
Qed.

(** X6: the formatter gives at most one element per line of the text,
    and none at all exactly when the text holds nothing but markup
    characters and white space. *)
Theorem block_count (text : jsstring) :
  length (formatAnalysis text) <= length (split LF text)
  /\ (formatAnalysis text = [] <-> forallb blank_char text = true).
Proof.
  split; [|apply no_blocks_iff].
  unfold formatAnalysis. generalize 0.
  induction (split LF text) as [|l ls IH]; intros k; [simpl; lia|].
  cbn [mapi_from]. specialize (IH (S k)).
  destruct (formatLine l k); simpl in *; lia.
Qed.

(** X7: cleaning a line twice is cleaning it once, so a line and its
    cleaned form are rendered alike. *)
Theorem formatLine_clean (line : jsstring) (index : nat) :
  cleanLine (cleanLine line) = cleanLine line
  /\ formatLine (cleanLine line) index = formatLine line index.
Proof.
  assert (H : cleanLine (cleanLine line) = cleanLine line).
  { unfold cleanLine at 1.
    rewrite remove_markup_fixed by apply cleanLine_no_markup.
    apply trimmed_fixed, cleanLine_trimmed. }
  split; [exact H|]. unfold formatLine. now rewrite H.
Qed.

(** ** More about the handlers *)

(** X8: when the analysis call resolves, the analysis is its result,
    the image is what it was, the loading flag and the error are
    cleared, and one call was made, with the image data and the fixed
    prompt; the page then shows no error banner, and shows the formatted
    result unless the result is the empty string, which hides the
    results panel. *)
Theorem analyze_success
  (imageData : option jsstring) (result : jsstring) (w : World) :
  let w' := exec (handleAnalyze imageData (Resolved result)) w in
  ui w' = mkUI (image (ui w)) result false None
  /\ calls w' = calls w ++ [AnalyzeImage imageData carPrompt]
  /\ error_banner (render (ui w')) = None
  /\ results (render (ui w'))
     = match result with
       | [] => None
       | _ :: _ => Some (formatAnalysis result)
       end.
Proof. cbv zeta. repeat split. Qed.

(** X9: a file that passes both checks, once read and analysed, leaves
    the page with the data read as the image, the result as the
    analysis, no error and no loading flag; the calls made are the read,
    the reset of the input and one analysis call with the data read and
    the fixed prompt. *)
Theorem upload_flow_success
  (file : File) (rest : list File) (data result : jsstring) (w : World) :
  startsWith (lit "image/") (type file) = true ->
  (size file <= 20 * 1024 * 1024)%N ->
  let w' := run [Change (Some (file :: rest));
                 UploadLoadEnd (Some data);
                 AnalyzeSettled (Resolved result)] w in
  ui w' = mkUI (Some data) result false None
  /\ calls w' = calls w ++ [ReadAsDataURL file; ResetInput;
                            AnalyzeImage (Some data) carPrompt].
Proof.
  intros Ht Hs. cbv zeta. cbn [run handle].
  unfold exec at 3, handleImageUpload. rewrite Ht. cbn [negb].
  destruct (N.ltb_spec (20 * 1024 * 1024) (size file)) as [Hgt|_];
    [lia|].
  split; [reflexivity|]. simpl. now rewrite <- !app_assoc.
Qed.

Lemma upload_flow_success_png :
  let file := mkBlob (lit "image/png") 204800 in
  let w' := run [Change (Some [file]);
                 UploadLoadEnd (Some (lit "data:image/png;base64,iVBOR"));
                 AnalyzeSettled (Resolved (lit "1. Car Identification:"))]
                initial in
  (size file <= 20 * 1024 * 1024)%N
  /\ ui w' = mkUI (Some (lit "data:image/png;base64,iVBOR"))
                  (lit "1. Car Identification:") false None.
Proof.
  cbv zeta. split; [discriminate|].
  apply (upload_flow_success (mkBlob (lit "image/png") 204800) []
           (lit "data:image/png;base64,iVBOR")
           (lit "1. Car Identification:") initial eq_refl).
  discriminate.
Defined.

(** X10: a file that passes both checks replaces the image as soon as
    it is read, while the analysis text stays the previous one; if the
    analysis then fails, the page is left with the new image, the
    previous analysis and the error. *)
Theorem upload_flow_failure
  (file : File) (rest : list File) (data : jsstring) (err : thrown)
  (w : World) :
  startsWith (lit "image/") (type file) = true ->
  (size file <= 20 * 1024 * 1024)%N ->
  let in_flight := run [Change (Some (file :: rest));
                        UploadLoadEnd (Some data)] w in
  let w' := run [AnalyzeSettled (Rejected err)] in_flight in
  ui in_flight = mkUI (Some data) (analysis (ui w)) true None
  /\ ui w' = mkUI (Some data) (analysis (ui w)) false
                  (Some (errorMessage err)).
Proof.
  intros Ht Hs. cbv zeta. cbn [run handle].
  unfold exec at 2 4, handleImageUpload. rewrite Ht. cbn [negb].
  destruct (N.ltb_spec (20 * 1024 * 1024) (size file)) as [Hgt|_];
    [lia|].
  split; reflexivity.
Qed.

Lemma upload_flow_failure_jpeg :
  let file := mkBlob (lit "image/jpeg") 4096 in
  let w := mkWorld (mkUI (Some (lit "data:old")) DEFAULT_ANALYSIS false
                         None) [] in
  let w' := run [Change (Some [file]);
                 UploadLoadEnd (Some (lit "data:new"));
                 AnalyzeSettled (Rejected ThrownOther)] w in
  (size file <= 20 * 1024 * 1024)%N
  /\ image (ui w') = Some (lit "data:new")
  /\ analysis (ui w') = DEFAULT_ANALYSIS.
Proof.
  cbv zeta. split; [discriminate|].
  pose proof (upload_flow_failure (mkBlob (lit "image/jpeg") 4096) []
                (lit "data:new") ThrownOther
                (mkWorld (mkUI (Some (lit "data:old")) DEFAULT_ANALYSIS
                               false None) [])
                eq_refl) as H.
  cbv zeta in H. destruct H as [_ H]; [discriminate|].
  split; [exact (f_equal image H) | exact (f_equal analysis H)].
Defined.

(** X11: when the fetch of the default image rejects, is not ok, or its
    body cannot be read, the initial load ends with the error
    [Failed to load default image], no image, no analysis and no
    loading flag, after one fetch and one console message; the page
    then shows the error banner and nothing else. *)
Theorem default_load_failure (r : fetched) :
  fetch_usable r = false ->
  let w := run [Mount; Fetched r] initial in
  ui w = mkUI None [] false (Some (lit "Failed to load default image"))
  /\ calls w = [Fetch DEFAULT_IMAGE; ConsoleError]
  /\ render (ui w)
     = mkView (Some (lit "Failed to load default image")) false None
              false None.
Proof.
  intros H. destruct r as [|[|] [blob|]]; try discriminate;
    cbv zeta; repeat split.
Qed.

Lemma default_load_failure_not_found :
  let r := FetchResponse false (Some (mkBlob (lit "text/html") 153)) in
  fetch_usable r = false
  /\ error (ui (run [Mount; Fetched r] initial))
     = Some (lit "Failed to load default image").
Proof.
  cbv zeta. split; [reflexivity|].
  pose proof (default_load_failure
                (FetchResponse false (Some (mkBlob (lit "text/html") 153)))
                eq_refl) as H.
  cbv zeta in H. destruct H as [H _]. exact (f_equal error H).
Defined.

(** X12: the upload's [onloadend] does not look at what was read: when
    the reader's error callback has run and [onloadend] follows with a
    null result, the read error is cleared again, the image is set to
    null and [analyzeImage] is called with null. *)
Theorem upload_reader_failure (w : World) :
  let w' := run [UploadReadError; UploadLoadEnd None] w in
  ui w' = mkUI None (analysis (ui w)) true None
  /\ calls w' = calls w ++ [AnalyzeImage None carPrompt]
  /\ error (ui (run [UploadReadError] w))
     = Some (lit "Failed to read the image file. Please try again.").
Proof. cbv zeta. repeat split. Qed.

(** X13: the initial load's [onloadend] does not look at what was read
    either: when the reader's error callback has run and [onloadend]
    follows with a null result, the page has the canned analysis and
    the error together, and no image. *)
Theorem default_reader_failure (blob : Blob) :
  let w := run [Mount; Fetched (FetchResponse true (Some blob));
                DefaultReadError; DefaultLoadEnd None] initial in
  ui w = mkUI None DEFAULT_ANALYSIS false
              (Some (lit "Failed to load default image"))
  /\ calls w = [Fetch DEFAULT_IMAGE; ReadAsDataURL blob].
Proof. cbv zeta. repeat split. Qed.

Lemma act_keeps_prompt (a : action) (w : World) :
  Forall uses_carPrompt (calls w) ->
  Forall uses_carPrompt (calls (exec (act a) w)).
Proof.
  intros H.
  assert (Hadd : forall c, uses_carPrompt c ->
                           Forall uses_carPrompt (calls w ++ [c])).
  { intros c Hc. apply Forall_app. split; [exact H | now constructor]. }
  assert (Hadd2 : forall c d, uses_carPrompt c -> uses_carPrompt d ->
                    Forall uses_carPrompt ((calls w ++ [c]) ++ [d])).
  { intros c d Hc Hd. apply Forall_app. split; [now apply Hadd|].
    now constructor. }
  destruct a as [e|].
  - destruct e as [ |r|result| |files|result| |r]; cbn [act handle].
    + now apply Hadd.
    + destruct r as [|[|] [blob|]]; now apply Hadd.
    + exact H.
    + exact H.
    + destruct files as [[|file rest]|]; try exact H.
      unfold exec, handleImageUpload.
      destruct (negb (startsWith (lit "image/") (type file)));
        [exact H|].
      destruct (20 * 1024 * 1024 <? size file)%N; [exact H|].
      now apply Hadd2.
    + now apply Hadd.
    + exact H.
    + destruct r; exact H.
  - unfold exec, act. destruct (can_identify (render (ui w)));
      [now apply Hadd | exact H].
Qed.

(** X14: whatever happens to the component, every analysis call it
    makes carries the fixed prompt. *)
Theorem prompt_is_fixed (acts : list action) :
  Forall uses_carPrompt (calls (play acts initial)).
Proof.
  assert (H : forall w, Forall uses_carPrompt (calls w) ->
                        Forall uses_carPrompt (calls (play acts w))).
  { induction acts as [|a acts IH]; intros w Hw; [exact Hw|].
    cbn [play]. now apply IH, act_keeps_prompt. }
  apply H. constructor.
Qed.

(** X15: nothing ties a result to the call it answers.  When two
    uploads are read one after the other, two analysis calls are out;
    the first result to arrive clears the loading flag although a call
    is still out, and the page ends with the second upload's image and
    whichever result arrived last. *)
Theorem last_settled_wins (d1 d2 first last : jsstring) (w : World) :
  let in_flight := run [UploadLoadEnd (Some d1); UploadLoadEnd (Some d2)]
                       w in
  let one_back := run [AnalyzeSettled (Resolved first)] in_flight in
  let both_back := run [AnalyzeSettled (Resolved last)] one_back in
  calls in_flight = calls w ++ [AnalyzeImage (Some d1) carPrompt;
                                AnalyzeImage (Some d2) carPrompt]
  /\ loading (ui in_flight) = true
  /\ loading (ui one_back) = false
  /\ calls both_back = calls in_flight
  /\ ui both_back = mkUI (Some d2) last false None.
Proof.
  cbv zeta. repeat split. simpl. now rewrite <- app_assoc.
Qed.

(** X16: after a failed analysis the error banner shows the message of
    the thrown [Error], or the fixed text for any other thrown value;
    for an [Error] with the empty message no banner is shown at all. *)
Theorem banner_after_failure
  (imageData : option jsstring) (err : thrown) (w : World) :
  error_banner
    (render (ui (exec (handleAnalyze imageData (Rejected err)) w)))
  = if has_message err then Some (errorMessage err) else None.
Proof. destruct err as [[|c m]|]; reflexivity. Qed.

(** X17: the results panel is shown with no block in it exactly when
    the analysis is not empty and holds nothing but markup characters
    and white space. *)
Theorem empty_results_panel (s : UIState) :
  results (render s) = Some []
  <-> analysis s <> [] /\ forallb blank_char (analysis s) = true.
Proof.
  unfold render. cbn [results].
  destruct (analysis s) as [|c t] eqn:E.
  - split; [discriminate | intros [H _]; now elim H].
  - rewrite <- no_blocks_iff. split.
    + intros [= H]. split; [discriminate | exact H].
    + intros [_ H]. now rewrite H.
Qed.

Lemma click_disabled (w : World) :
  can_identify (render (ui w)) = false -> exec (act ClickIdentify) w = w.
Proof.
  intros H. unfold exec, act. rewrite H. reflexivity.
Qed.

Lemma clicks_disabled (n : nat) (w : World) :
  can_identify (render (ui w)) = false ->
  play (repeat ClickIdentify n) w = w.
Proof.
  intros H. induction n as [|n IH]; [reflexivity|].
  cbn [repeat play]. now rewrite click_disabled.
Qed.

(** X18: however often the Identify button is clicked in a row, at most
    one analysis starts: the first click starts the analysis of the
    image shown if the button is there and enabled, and the clicks
    after it, or all of them if it is not, do nothing. *)
Theorem repeated_clicks (n : nat) (w : World) :
  play (repeat ClickIdentify (S n)) w
  = if can_identify (render (ui w))
    then exec (handleAnalyze_start (image (ui w))) w
    else w.
Proof.
  destruct (can_identify (render (ui w))) eqn:H.
  - cbn [repeat play]. rewrite clicks_disabled.
    + unfold exec at 1, act. now rewrite H.
    + unfold exec, act. rewrite H. cbn.
      now rewrite andb_false_r.
  - now apply clicks_disabled.
Qed.
